(** * QuickJot AI: the note summarizer view (src/App.tsx)

    A shallow embedding of the state and the event handlers of the [App]
    component, and of the event loop that dispatches them, followed by the
    properties of the view. *)

From Stdlib Require Import List Bool NArith String Ascii Lia.
From Stdlib Require Import PeanoNat.
Import ListNotations.

Set Implicit Arguments.

(** ** JavaScript strings *)

Module JS.

(** A JavaScript string is a sequence of UTF-16 code units. *)
Definition jsstring := list N.

(** A string literal of the source (all of them are ASCII). *)
Definition lit (s : string) : jsstring :=
  map N_of_ascii (list_ascii_of_string s).

(** ECMAScript WhiteSpace and LineTerminator code points, the ones
    [String.prototype.trim] strips.  All of them lie in the basic plane,
    so each is one code unit. *)
Definition isWhiteSpace (c : N) : bool :=
  (N.eqb c 0x0009 || N.eqb c 0x000A || N.eqb c 0x000B || N.eqb c 0x000C
   || N.eqb c 0x000D || N.eqb c 0x0020 || N.eqb c 0x00A0 || N.eqb c 0x1680
   || (N.leb 0x2000 c && N.leb c 0x200A)
   || N.eqb c 0x2028 || N.eqb c 0x2029 || N.eqb c 0x202F || N.eqb c 0x205F
   || N.eqb c 0x3000 || N.eqb c 0xFEFF)%N.

Fixpoint trimStart (s : jsstring) : jsstring :=
  match s with
  | [] => []
  | c :: r => if isWhiteSpace c then trimStart r else s
  end.

Definition trimEnd (s : jsstring) : jsstring := rev (trimStart (rev s)).

(** [s.trim()] *)
Definition trim (s : jsstring) : jsstring := trimEnd (trimStart s).

(** ToBoolean on a string: only the empty string is falsy. *)
Definition truthy (s : jsstring) : bool :=
  match s with [] => false | _ :: _ => true end.

(** ToBoolean on [string | undefined] (or [string | null]). *)
Definition truthy_opt (v : option jsstring) : bool :=
  match v with None => false | Some s => truthy s end.

(** [v || d] where [v : string | undefined] and [d : string]. *)
Definition or_else (v : option jsstring) (d : jsstring) : jsstring :=
  match v with
  | Some s => if truthy s then s else d
  | None => d
  end.

(** The text is empty or made of white space only. *)
Definition blank (s : jsstring) : bool := forallb isWhiteSpace s.

End JS.

Import JS.

(** ** View state: the six [useState] cells of [App] *)

Record State : Type := mkState {
  inputText : jsstring;
  summary : jsstring;
  isLoading : bool;
  error : option jsstring;
  apiKeyMissing : bool;
  copyNotification : option jsstring
}.

(** The initial values given to [useState]. *)
Definition initialState : State :=
  {| inputText := lit ""; summary := lit ""; isLoading := false;
     error := None; apiKeyMissing := false; copyNotification := None |}.

(** ** The collaborators *)

(** Modelled from the spec: services/geminiService ([summarizeText]) is not
    under src/.  Its failure signal is an error whose reason string is
    optional; [message] is that reason, [None] when the thrown value carries
    none. *)
Record Thrown : Type := mkThrown { message : option jsstring }.

(** How the promise returned by [summarizeText] settles. *)
Inductive Settled : Type :=
| Fulfilled (result : jsstring)
| Rejected (e : Thrown).

(** What a handler asks of the outside world. *)
Inductive Effect : Type :=
| CallSummarizeText (text : jsstring)
| ClipboardWriteText (text : jsstring)
| ConsoleError (label : jsstring) (e : option Thrown)
| SetTimeout (delay : N).

(** Where an [async] handler stands when it gives control back to the event
    loop: it has returned, or it is suspended at its [await]. *)
Inductive Async : Type :=
| Returned
| AwaitSummarizeText (text : jsstring)
| AwaitClipboardWrite (text type : jsstring).

(** ** Handlers: state passing with a log of effects *)

Definition M (A : Type) : Type := State -> A * State * list Effect.

Definition ret {A} (a : A) : M A := fun st => (a, st, []).

Definition bind {A B} (m : M A) (k : A -> M B) : M B :=
  fun st =>
    let '(a, st1, out1) := m st in
    let '(b, st2, out2) := k a st1 in
    (b, st2, out1 ++ out2).

Declare Scope handler_scope.
Delimit Scope handler_scope with handler.
Notation "x <- m ;; k" := (bind m (fun x => k))
  (at level 61, m at next level, right associativity) : handler_scope.
Notation "m ;; k" := (bind m (fun _ => k))
  (at level 61, right associativity) : handler_scope.
Open Scope handler_scope.

(** The values a handler closes over: those of the render it was created
    in, which is the committed state when the event is dispatched. *)
Definition render : M State := fun st => (st, st, []).

Definition emit (e : Effect) : M unit := fun st => (tt, st, [e]).

Definition setInputText (v : jsstring) : M unit := fun st =>
  (tt, {| inputText := v; summary := summary st; isLoading := isLoading st;
          error := error st; apiKeyMissing := apiKeyMissing st;
          copyNotification := copyNotification st |}, []).

Definition setSummary (v : jsstring) : M unit := fun st =>
  (tt, {| inputText := inputText st; summary := v; isLoading := isLoading st;
          error := error st; apiKeyMissing := apiKeyMissing st;
          copyNotification := copyNotification st |}, []).

Definition setIsLoading (v : bool) : M unit := fun st =>
  (tt, {| inputText := inputText st; summary := summary st; isLoading := v;
          error := error st; apiKeyMissing := apiKeyMissing st;
          copyNotification := copyNotification st |}, []).

Definition setError (v : option jsstring) : M unit := fun st =>
  (tt, {| inputText := inputText st; summary := summary st;
          isLoading := isLoading st; error := v;
          apiKeyMissing := apiKeyMissing st;
          copyNotification := copyNotification st |}, []).

Definition setApiKeyMissing (v : bool) : M unit := fun st =>
  (tt, {| inputText := inputText st; summary := summary st;
          isLoading := isLoading st; error := error st; apiKeyMissing := v;
          copyNotification := copyNotification st |}, []).

Definition setCopyNotification (v : option jsstring) : M unit := fun st =>
  (tt, {| inputText := inputText st; summary := summary st;
          isLoading := isLoading st; error := error st;
          apiKeyMissing := apiKeyMissing st; copyNotification := v |}, []).

(** Projections of a run. *)
Definition stateOf {A} (r : A * State * list Effect) : State := snd (fst r).
Definition valueOf {A} (r : A * State * list Effect) : A := fst (fst r).
Definition effectsOf {A} (r : A * State * list Effect) : list Effect := snd r.

(** ** The handlers of [App] *)

Definition apiKeyMissingMessage : jsstring :=
  lit "Gemini API key is missing. Please set the API_KEY environment variable.".

Definition validationMessage : jsstring :=
  lit "Please enter some text to summarize.".

Definition fallbackMessage : jsstring :=
  lit "Failed to summarize text. Check console for details.".

(** The mount effect, [useEffect(..., [])]; [API_KEY] is
    [process.env.API_KEY]. *)
Definition startupEffect (API_KEY : option jsstring) : M unit :=
  if negb (truthy_opt API_KEY) then
    setApiKeyMissing true ;;
    setError (Some apiKeyMissingMessage)
  else ret tt.

(** [handleSummarize], up to its [await]. *)
Definition handleSummarize : M Async :=
  r <- render ;;
  if apiKeyMissing r then ret Returned
  else if negb (truthy (trim (inputText r))) then
    setError (Some validationMessage) ;;
    ret Returned
  else
    setIsLoading true ;;
    setError None ;;
    setSummary (lit "") ;;
    emit (CallSummarizeText (inputText r)) ;;
    ret (AwaitSummarizeText (inputText r)).

(** [handleSummarize], from the point where the awaited promise settles:
    the rest of the [try], the [catch] and the [finally]. *)
Definition handleSummarize_resume (o : Settled) : M unit :=
  match o with
  | Fulfilled result => setSummary result
  | Rejected e =>
      emit (ConsoleError (lit "Summarization error:") (Some e)) ;;
      setError (Some (or_else (message e) fallbackMessage))
  end ;;
  setIsLoading false.

Definition handleClear : M unit :=
  setInputText (lit "") ;;
  setSummary (lit "") ;;
  setError None ;;
  setCopyNotification None.

Definition copyDelay : N := 2000.

Definition showCopyNotification (msg : jsstring) : M unit :=
  setCopyNotification (Some msg) ;;
  emit (SetTimeout copyDelay).

(** The callback handed to [setTimeout]. *)
Definition copyNotificationTimeout : M unit :=
  setCopyNotification None.

(** [copyToClipboard], up to its [await]. *)
Definition copyToClipboard (text type : jsstring) : M Async :=
  if negb (truthy text) then ret Returned
  else
    emit (ClipboardWriteText text) ;;
    ret (AwaitClipboardWrite text type).

(** [copyToClipboard], once [navigator.clipboard.writeText] has settled;
    [ok] tells whether it fulfilled. *)
Definition copyToClipboard_resume (type : jsstring) (ok : bool) : M unit :=
  if ok then
    showCopyNotification (type ++ lit " copied to clipboard!")
  else
    emit (ConsoleError (lit "Failed to copy text: ") None) ;;
    showCopyNotification (lit "Failed to copy " ++ type ++ lit ".").

(** [handleSummarize] run from its call to its completion, with nothing
    dispatched in between; [summarizeText] tells how the collaborator
    settles the call on a given text. *)
Definition handleSummarize_async (summarizeText : jsstring -> Settled)
  : M unit :=
  a <- handleSummarize ;;
  match a with
  | AwaitSummarizeText text => handleSummarize_resume (summarizeText text)
  | _ => ret tt
  end.

(** ** What the rendered tree lets the user do *)

(** [disabled] of the textarea and of the Clear button. *)
Definition textareaDisabled (st : State) : bool := isLoading st.
Definition clearDisabled (st : State) : bool := isLoading st.

(** [disabled] of the Summarize button. *)
Definition summarizeDisabled (st : State) : bool :=
  isLoading st || apiKeyMissing st || negb (truthy (trim (inputText st))).

(** [disabled] of the Copy Note button. *)
Definition copyNoteDisabled (st : State) : bool :=
  isLoading st || negb (truthy (trim (inputText st))).

(** The Copy Summary button is rendered under [summary && !isLoading]. *)
Definition copySummaryShown (st : State) : bool :=
  truthy (summary st) && negb (isLoading st).

(** ** The event loop *)

(** A continuation waiting in the event loop. *)
Inductive Pending : Type :=
| PendingSummarize (text : jsstring)
| PendingClipboard (text type : jsstring)
| PendingTimer (delay : N).

Record World : Type := mkWorld {
  view : State;
  pending : list Pending;
  trace : list Effect
}.

(** Modelled from the spec: components/Button is not under src/; the spec
    counts buttons as presentation without behaviour of their own, so a
    Button is taken to be a DOM button given the [disabled] and [onClick] it
    receives: it dispatches no click while disabled, and a button that is
    not rendered cannot be clicked.  The pending continuations are addressed
    by their position in the queue. *)
Inductive Event : Type :=
| ChangeText (v : jsstring)
| ClickSummarize
| ClickClear
| ClickCopyNote
| ClickCopySummary
| SummarizeTextSettles (i : nat) (o : Settled)
| ClipboardSettles (i : nat) (ok : bool)
| TimerFires (i : nat).

Definition awaited (a : Async) : list Pending :=
  match a with
  | Returned => []
  | AwaitSummarizeText text => [PendingSummarize text]
  | AwaitClipboardWrite text type => [PendingClipboard text type]
  end.

Definition timerOf (e : Effect) : list Pending :=
  match e with
  | SetTimeout delay => [PendingTimer delay]
  | _ => []
  end.

(** Run a handler on the committed state; what it awaits and the timers it
    sets join the pending continuations. *)
Definition dispatch {A} (h : M A) (susp : A -> list Pending) (w : World)
  : World :=
  let '(a, st, out) := h (view w) in
  {| view := st;
     pending := pending w ++ susp a ++ flat_map timerOf out;
     trace := trace w ++ out |}.

Definition nothing {A} (_ : A) : list Pending := [].

Fixpoint remove_nth {A} (i : nat) (l : list A) : list A :=
  match l, i with
  | [], _ => []
  | _ :: r, O => r
  | x :: r, S j => x :: remove_nth j r
  end.

Definition unqueue (i : nat) (w : World) : World :=
  {| view := view w; pending := remove_nth i (pending w); trace := trace w |}.

(** One turn of the event loop; [None] when the event cannot occur.  Pending
    continuations may run in any order, which covers every order the browser
    can choose. *)
Definition step (w : World) (ev : Event) : option World :=
  match ev with
  | ChangeText v =>
      if textareaDisabled (view w) then None
      else Some (dispatch (setInputText v) nothing w)
  | ClickSummarize =>
      if summarizeDisabled (view w) then None
      else Some (dispatch handleSummarize awaited w)
  | ClickClear =>
      if clearDisabled (view w) then None
      else Some (dispatch handleClear nothing w)
  | ClickCopyNote =>
      if copyNoteDisabled (view w) then None
      else Some (dispatch (copyToClipboard (inputText (view w)) (lit "Note"))
                   awaited w)
  | ClickCopySummary =>
      if copySummaryShown (view w)
      then Some (dispatch (copyToClipboard (summary (view w)) (lit "Summary"))
                   awaited w)
      else None
  | SummarizeTextSettles i o =>
      match nth_error (pending w) i with
      | Some (PendingSummarize _) =>
          Some (dispatch (handleSummarize_resume o) nothing (unqueue i w))
      | _ => None
      end
  | ClipboardSettles i ok =>
      match nth_error (pending w) i with
      | Some (PendingClipboard _ type) =>
          Some (dispatch (copyToClipboard_resume type ok) nothing
                  (unqueue i w))
      | _ => None
      end
  | TimerFires i =>
      match nth_error (pending w) i with
      | Some (PendingTimer _) =>
          Some (dispatch copyNotificationTimeout nothing (unqueue i w))
      | _ => None
      end
  end.

Fixpoint run (w : World) (evs : list Event) : option World :=
  match evs with
  | [] => Some w
  | ev :: rest =>
      match step w ev with
      | Some w1 => run w1 rest
      | None => None
      end
  end.

(** The view once mounted: initial state, then the mount effect. *)
Definition boot (API_KEY : option jsstring) : World :=
  dispatch (startupEffect API_KEY) nothing
    {| view := initialState; pending := []; trace := [] |}.

Definition isPendingSummarize (p : Pending) : bool :=
  match p with PendingSummarize _ => true | _ => false end.

(** Number of summarization requests in flight. *)
Definition inFlight (w : World) : nat :=
  List.length (filter isPendingSummarize (pending w)).

Definition isCallSummarizeText (e : Effect) : bool :=
  match e with CallSummarizeText _ => true | _ => false end.

(** The calls made to the summarization collaborator. *)
Definition summarizeCalls (out : list Effect) : list Effect :=
  filter isCallSummarizeText out.

Definition isClipboardWrite (e : Effect) : bool :=
  match e with ClipboardWriteText _ => true | _ => false end.

Definition isClickClear (ev : Event) : bool :=
  match ev with ClickClear => true | _ => false end.

(** The loading flag counts the requests in flight. *)
Definition loading_tracks_requests (w : World) : Prop :=
  inFlight w = if isLoading (view w) then 1 else 0.

(** The view of a session without credential: the flag is set and nothing
    is in flight. *)
Definition disabled_session (w : World) : Prop :=
  apiKeyMissing (view w) = true /\ inFlight w = 0.

(** ** What the rendered tree shows *)

(** The body of the AI Summary panel: the spinner with its caption, the
    summary, or one of three placeholder lines. *)
Inductive Panel : Type :=
| GeneratingSummary
| SummaryText (text : jsstring)
| Placeholder (text : jsstring).

Definition summaryPanel (st : State) : Panel :=
  if isLoading st && negb (truthy (summary st)) then GeneratingSummary
  else if truthy (summary st) then SummaryText (summary st)
  else Placeholder
         (if apiKeyMissing st then lit "AI features disabled."
          else if truthy_opt (error st)
               then lit "Summary could not be generated."
               else lit "Summary will appear here...").

(** [{error && ...}] and [{copyNotification && ...}]. *)
Definition errorBannerShown (st : State) : bool := truthy_opt (error st).
Definition toastShown (st : State) : bool := truthy_opt (copyNotification st).

(** ** Invariants of the event loop *)

(** A request in flight is the one for the note on display: the view is
    loading, shows no summary and no error, and has its credential. *)
Definition request_matches_view (w : World) : Prop :=
  forall T, In (PendingSummarize T) (pending w) ->
    isLoading (view w) = true
    /\ inputText (view w) = T
    /\ blank T = false
    /\ summary (view w) = lit ""
    /\ error (view w) = None
    /\ apiKeyMissing (view w) = false.

Definition coherent (w : World) : Prop :=
  loading_tracks_requests w /\ request_matches_view w.

(** Messages held in the state are never the empty string. *)
Definition messages_nonempty (w : World) : Prop :=
  error (view w) <> Some [] /\ copyNotification (view w) <> Some [].

(** The collaborator was only ever called with a credential and a note
    that is not blank. *)
Definition calls_guarded (w : World) : Prop :=
  forall T, In (CallSummarizeText T) (trace w) ->
    blank T = false /\ apiKeyMissing (view w) = false.

(** The clipboard was never handed the empty string. *)
Definition writes_nonempty (w : World) : Prop :=
  forall t, In (ClipboardWriteText t) (trace w) -> t <> [].

(** Where the continuation at position [i] sits once the one at [j] has
    left the queue. *)
Definition shifted (j i : nat) : nat := if Nat.ltb j i then i - 1 else i.

(** ** Sample runs *)

Definition sample_note : jsstring := lit "Meeting notes: discuss Q3 budget.".
Definition sample_summary : jsstring := lit "Discuss Q3 budget.".

(** A note has been typed, an earlier summary is shown. *)
Definition typed_state : State :=
  {| inputText := sample_note; summary := lit "old summary";
     isLoading := false; error := None; apiKeyMissing := false;
     copyNotification := None |}.

(** The same while a request is in flight. *)
Definition loading_state : State :=
  {| inputText := sample_note; summary := lit ""; isLoading := true;
     error := None; apiKeyMissing := false; copyNotification := None |}.

(** No credential, the banner dismissed with Clear, nothing typed. *)
Definition cleared_disabled_state : State :=
  {| inputText := lit ""; summary := lit ""; isLoading := false;
     error := None; apiKeyMissing := true; copyNotification := None |}.

Definition always_fulfils (R : jsstring) (_ : jsstring) : Settled :=
  Fulfilled R.

Definition always_rejects (reason : option jsstring) (_ : jsstring)
  : Settled :=
  Rejected {| message := reason |}.

(** A Copy Note click whose clipboard write is still pending. *)
Definition copy_pending_world : World :=
  {| view := typed_state;
     pending := [PendingClipboard sample_note (lit "Note")];
     trace := [ClipboardWriteText sample_note] |}.

(** The toast of an earlier copy is up, its timer armed, and a second
    clipboard write is pending. *)
Definition second_copy_world : World :=
  {| view := stateOf (setCopyNotification
                        (Some (lit "Note copied to clipboard!")) typed_state);
     pending := [PendingTimer copyDelay;
                 PendingClipboard (lit "old summary") (lit "Summary")];
     trace := [ClipboardWriteText sample_note; SetTimeout copyDelay;
               ClipboardWriteText (lit "old summary")] |}.

Example end_to_end :
  option_map (fun w => (summary (view w), isLoading (view w), inFlight w))
    (run (boot (Some (lit "key")))
       [ChangeText sample_note; ClickSummarize;
        SummarizeTextSettles 0 (Fulfilled sample_summary)])
  = Some (sample_summary, false, 0).
Proof. reflexivity. Qed.

Example second_click_refused :
  run (boot (Some (lit "key")))
    [ChangeText sample_note; ClickSummarize; ClickSummarize] = None.
Proof. reflexivity. Qed.

Example trim_sample : trim (lit "  a b ") = lit "a b".
Proof. reflexivity. Qed.

(** ** Strings *)

Section Trim.

Lemma trimStart_nil_iff (s : jsstring) :
  trimStart s = [] <-> blank s = true.
Proof.
  induction s as [|c r IH]; simpl.
  - tauto.
  - destruct (isWhiteSpace c); simpl; [exact IH | split; discriminate].
Qed.

Lemma blank_trimStart (s : jsstring) : blank (trimStart s) = blank s.
Proof.
  induction s as [|c r IH]; simpl; [reflexivity|].
  destruct (isWhiteSpace c) eqn:Hc; simpl; [exact IH | now rewrite Hc].
Qed.

Lemma blank_rev (s : jsstring) : blank (rev s) = blank s.
Proof.
  unfold blank. apply eq_true_iff_eq.
  rewrite !forallb_forall. split; intros H x Hx; apply H.
  - now apply in_rev in Hx.
  - now apply in_rev.
Qed.

(** [!text.trim()] is the blank test. *)
Lemma truthy_trim (s : jsstring) : truthy (trim s) = negb (blank s).
Proof.
  unfold trim, trimEnd.
  destruct (blank s) eqn:Hb; simpl.
  - apply trimStart_nil_iff in Hb. now rewrite Hb.
  - destruct (rev (trimStart (rev (trimStart s)))) as [|c r] eqn:E;
      [|reflexivity].
    apply (f_equal (@rev N)) in E. rewrite rev_involutive in E. simpl in E.
    apply trimStart_nil_iff in E.
    rewrite blank_rev, blank_trimStart in E. congruence.
Qed.

Lemma truthy_false_iff (s : jsstring) : truthy s = false <-> s = [].
Proof. destruct s; simpl; split; congruence. Qed.

Lemma truthy_true_iff (s : jsstring) : truthy s = true <-> s <> [].
Proof. destruct s; simpl; split; congruence. Qed.

End Trim.

(** ** Handlers, equation by equation *)

Section Equations.

Variable st : State.

Lemma handleSummarize_flag :
  apiKeyMissing st = true -> handleSummarize st = (Returned, st, []).
Proof.
  intros H. unfold handleSummarize, bind, render. now rewrite H.
Qed.

Lemma handleSummarize_blank :
  apiKeyMissing st = false -> blank (inputText st) = true ->
  handleSummarize st
  = (Returned, stateOf (setError (Some validationMessage) st), []).
Proof.
  intros H Hb. unfold handleSummarize, bind, render.
  now rewrite H, truthy_trim, Hb.
Qed.

Lemma handleSummarize_call :
  apiKeyMissing st = false -> blank (inputText st) = false ->
  handleSummarize st
  = (AwaitSummarizeText (inputText st),
     {| inputText := inputText st; summary := lit ""; isLoading := true;
        error := None; apiKeyMissing := false;
        copyNotification := copyNotification st |},
     [CallSummarizeText (inputText st)]).
Proof.
  intros H Hb. unfold handleSummarize, bind, render.
  rewrite H, truthy_trim, Hb. simpl. now rewrite H.
Qed.

Lemma handleSummarize_resume_fulfilled (result : jsstring) :
  handleSummarize_resume (Fulfilled result) st
  = (tt,
     {| inputText := inputText st; summary := result; isLoading := false;
        error := error st; apiKeyMissing := apiKeyMissing st;
        copyNotification := copyNotification st |},
     []).
Proof. reflexivity. Qed.

Lemma handleSummarize_resume_rejected (e : Thrown) :
  handleSummarize_resume (Rejected e) st
  = (tt,
     {| inputText := inputText st; summary := summary st;
        isLoading := false;
        error := Some (or_else (message e) fallbackMessage);
        apiKeyMissing := apiKeyMissing st;
        copyNotification := copyNotification st |},
     [ConsoleError (lit "Summarization error:") (Some e)]).
Proof. reflexivity. Qed.

Lemma copyToClipboard_empty (type : jsstring) :
  copyToClipboard [] type st = (Returned, st, []).
Proof. reflexivity. Qed.

Lemma copyToClipboard_write (text type : jsstring) :
  text <> [] ->
  copyToClipboard text type st
  = (AwaitClipboardWrite text type, st, [ClipboardWriteText text]).
Proof. destruct text; [congruence | reflexivity]. Qed.

End Equations.

(** Which calls a run of [handleSummarize] makes. *)
Lemma handleSummarize_effects (st : State) :
  effectsOf (handleSummarize st)
  = if apiKeyMissing st || blank (inputText st) then []
    else [CallSummarizeText (inputText st)].
Proof.
  destruct (apiKeyMissing st) eqn:Hk; simpl.
  - now rewrite handleSummarize_flag.
  - destruct (blank (inputText st)) eqn:Hb.
    + now rewrite handleSummarize_blank.
    + now rewrite handleSummarize_call.
Qed.

Lemma or_else_truthy (v : option jsstring) (d : jsstring) :
  truthy d = true -> truthy (or_else v d) = true.
Proof.
  intros Hd. destruct v as [s|]; simpl; [|exact Hd].
  destruct (truthy s) eqn:Hs; assumption.
Qed.

(** ** The event loop *)

Section Queue.

Context {A : Type} (f : A -> bool).

Lemma remove_nth_count (i : nat) (l : list A) (p : A) :
  nth_error l i = Some p ->
  List.length (filter f l)
  = List.length (filter f (remove_nth i l)) + (if f p then 1 else 0).
Proof.
  revert i. induction l as [|x r IH]; intros [|j] H; simpl in *;
    try discriminate.
  - injection H as ->. destruct (f p); simpl; lia.
  - specialize (IH j H). destruct (f x); simpl; lia.
Qed.

End Queue.

Lemma timers_not_requests (out : list Effect) :
  filter isPendingSummarize (flat_map timerOf out) = [].
Proof.
  induction out as [|e r IH]; simpl; [reflexivity|].
  rewrite filter_app, IH. now destruct e.
Qed.

Lemma inFlight_dispatch {A} (h : M A) (susp : A -> list Pending) (w : World) :
  inFlight (dispatch h susp w)
  = inFlight w
    + List.length (filter isPendingSummarize (susp (valueOf (h (view w))))).
Proof.
  unfold inFlight, dispatch, valueOf.
  destruct (h (view w)) as [[a st'] out]; simpl.
  now rewrite !filter_app, timers_not_requests, app_nil_r, length_app.
Qed.

Lemma view_dispatch {A} (h : M A) (susp : A -> list Pending) (w : World) :
  view (dispatch h susp w) = stateOf (h (view w)).
Proof.
  unfold dispatch, stateOf. now destruct (h (view w)) as [[a st'] out].
Qed.

Lemma trace_dispatch {A} (h : M A) (susp : A -> list Pending) (w : World) :
  trace (dispatch h susp w) = trace w ++ effectsOf (h (view w)).
Proof.
  unfold dispatch, effectsOf. now destruct (h (view w)) as [[a st'] out].
Qed.

Lemma inFlight_unqueue (i : nat) (w : World) (p : Pending) :
  nth_error (pending w) i = Some p ->
  inFlight w = inFlight (unqueue i w) + (if isPendingSummarize p then 1 else 0).
Proof. intros H. unfold inFlight. simpl. now apply remove_nth_count. Qed.

Lemma summarizeDisabled_false (st : State) :
  summarizeDisabled st = false ->
  isLoading st = false /\ apiKeyMissing st = false
  /\ blank (inputText st) = false.
Proof.
  unfold summarizeDisabled. rewrite truthy_trim, negb_involutive.
  destruct (isLoading st), (apiKeyMissing st), (blank (inputText st));
    simpl; intros; try discriminate; auto.
Qed.

Lemma copyToClipboard_state (text type : jsstring) (st : State) :
  stateOf (copyToClipboard text type st) = st.
Proof. now destruct text. Qed.

Lemma copyToClipboard_no_request (text type : jsstring) (st : State) :
  filter isPendingSummarize (awaited (valueOf (copyToClipboard text type st)))
  = [].
Proof. now destruct text. Qed.

Lemma copyToClipboard_no_call (text type : jsstring) (st : State) :
  summarizeCalls (effectsOf (copyToClipboard text type st)) = [].
Proof. now destruct text. Qed.

(** Destructs the gate or the queue lookup that [step] went through. *)
Ltac step_inv H :=
  unfold step in H;
  repeat match type of H with
         | (if ?c then _ else _) = Some _ =>
             let E := fresh "Hgate" in destruct c eqn:E; try discriminate H
         | match nth_error ?l ?i with _ => _ end = Some _ =>
             let E := fresh "Hq" in
             destruct (nth_error l i) as [[?|? ?|?]|] eqn:E;
             try discriminate H
         end;
  injection H as <-.

Lemma step_loading_tracks_requests (w w' : World) (ev : Event) :
  loading_tracks_requests w -> step w ev = Some w' ->
  loading_tracks_requests w'.
Proof.
  unfold loading_tracks_requests. intros Inv H.
  destruct ev; step_inv H; rewrite inFlight_dispatch, view_dispatch.
  - simpl. lia.
  - apply summarizeDisabled_false in Hgate as (Hl & Hk & Hb).
    rewrite handleSummarize_call by assumption. rewrite Hl in Inv.
    simpl. lia.
  - simpl. lia.
  - rewrite copyToClipboard_state, copyToClipboard_no_request. simpl. lia.
  - rewrite copyToClipboard_state, copyToClipboard_no_request. simpl. lia.
  - rewrite (inFlight_unqueue _ _ Hq) in Inv. simpl in Inv.
    destruct o; simpl.
    + destruct (isLoading (view w)); lia.
    + destruct (isLoading (view w)); lia.
  - rewrite (inFlight_unqueue _ _ Hq) in Inv. simpl in Inv.
    destruct ok; simpl; lia.
  - rewrite (inFlight_unqueue _ _ Hq) in Inv. simpl in Inv. simpl. lia.
Qed.

Lemma run_invariant (P : World -> Prop) :
  (forall w w' ev, P w -> step w ev = Some w' -> P w') ->
  forall evs w w', P w -> run w evs = Some w' -> P w'.
Proof.
  intros Hstep. induction evs as [|ev rest IH]; simpl; intros w w' HP H.
  - now injection H as <-.
  - destruct (step w ev) as [w1|] eqn:E; [|discriminate].
    eapply IH; [|exact H]. eapply Hstep; eauto.
Qed.

Lemma boot_loading_tracks_requests (k : option jsstring) :
  loading_tracks_requests (boot k).
Proof.
  unfold loading_tracks_requests, boot, startupEffect.
  destruct (truthy_opt k); reflexivity.
Qed.

Lemma step_flag_permanent (w w' : World) (ev : Event) :
  apiKeyMissing (view w) = true -> step w ev = Some w' ->
  apiKeyMissing (view w') = true.
Proof.
  intros Hk H. destruct ev; step_inv H; rewrite view_dispatch;
    try rewrite copyToClipboard_state; try assumption.
  - apply summarizeDisabled_false in Hgate as (_ & Hk' & _). congruence.
  - destruct o; assumption.
  - destruct ok; assumption.
Qed.

Lemma step_disabled_session (w w' : World) (ev : Event) :
  disabled_session w -> step w ev = Some w' ->
  disabled_session w'
  /\ error (view w') = if isClickClear ev then None else error (view w).
Proof.
  intros [Hk Hn] H. split; [split|].
  - eapply step_flag_permanent; eauto.
  - destruct ev; step_inv H; rewrite inFlight_dispatch;
      try rewrite copyToClipboard_no_request; simpl;
      try rewrite (inFlight_unqueue _ _ Hq) in Hn; simpl in Hn; try lia.
    apply summarizeDisabled_false in Hgate as (_ & Hk' & _). congruence.
  - destruct ev; step_inv H; rewrite view_dispatch;
      try rewrite copyToClipboard_state; simpl; try reflexivity.
    + apply summarizeDisabled_false in Hgate as (_ & Hk' & _). congruence.
    + rewrite (inFlight_unqueue _ _ Hq) in Hn. simpl in Hn. lia.
    + now destruct ok.
Qed.

Lemma run_disabled_session (evs : list Event) (w w' : World) :
  disabled_session w -> run w evs = Some w' ->
  disabled_session w'
  /\ error (view w') = if existsb isClickClear evs then None else error (view w).
Proof.
  revert w. induction evs as [|ev rest IH]; simpl; intros w Hd H.
  - injection H as <-. auto.
  - destruct (step w ev) as [w1|] eqn:E; [|discriminate].
    destruct (step_disabled_session _ Hd E) as [Hd1 He1].
    destruct (IH _ Hd1 H) as [Hd' He']. split; [assumption|].
    rewrite He', He1.
    destruct (isClickClear ev), (existsb isClickClear rest); reflexivity.
Qed.

Lemma boot_without_key (k : option jsstring) :
  truthy_opt k = false ->
  disabled_session (boot k)
  /\ error (view (boot k)) = Some apiKeyMissingMessage.
Proof.
  intros H. unfold boot, startupEffect, disabled_session. rewrite H.
  repeat split.
Qed.

Lemma summarizeCalls_app (a b : list Effect) :
  summarizeCalls (a ++ b) = summarizeCalls a ++ summarizeCalls b.
Proof. apply filter_app. Qed.

Lemma step_calls_flag (w w' : World) (ev : Event) :
  apiKeyMissing (view w) = true -> step w ev = Some w' ->
  summarizeCalls (trace w') = summarizeCalls (trace w).
Proof.
  intros Hk H. destruct ev; step_inv H;
    rewrite trace_dispatch, summarizeCalls_app;
    try rewrite copyToClipboard_no_call; simpl;
    try now rewrite app_nil_r.
  - apply summarizeDisabled_false in Hgate as (_ & Hk' & _). congruence.
  - destruct o; simpl; now rewrite app_nil_r.
  - destruct ok; simpl; now rewrite app_nil_r.
Qed.

Lemma run_calls_flag (evs : list Event) (w w' : World) :
  apiKeyMissing (view w) = true -> run w evs = Some w' ->
  summarizeCalls (trace w') = summarizeCalls (trace w).
Proof.
  revert w. induction evs as [|ev rest IH]; simpl; intros w Hk H.
  - now injection H as <-.
  - destruct (step w ev) as [w1|] eqn:E; [|discriminate].
    rewrite (IH w1); [eapply step_calls_flag; eauto | | exact H].
    eapply step_flag_permanent; eauto.
Qed.

(** Whenever a request is in flight and its promise fulfils with [R], the
    continuation runs and leaves [R] as the summary with loading off,
    whatever was dispatched since the call. *)
Lemma summarize_settles_fulfilled (w : World) (i : nat) (T R : jsstring) :
  nth_error (pending w) i = Some (PendingSummarize T) ->
  exists w', step w (SummarizeTextSettles i (Fulfilled R)) = Some w'
             /\ summary (view w') = R /\ isLoading (view w') = false.
Proof.
  intros H. simpl. rewrite H. eexists. split; [reflexivity|].
  rewrite view_dispatch. split; reflexivity.
Qed.

Lemma handleSummarize_async_quiet (f : jsstring -> Settled) (st : State) :
  apiKeyMissing st || blank (inputText st) = true ->
  handleSummarize_async f st = (tt, stateOf (handleSummarize st), []).
Proof.
  intros H. unfold handleSummarize_async, bind.
  destruct (apiKeyMissing st) eqn:Hk.
  - now rewrite handleSummarize_flag.
  - simpl in H. now rewrite handleSummarize_blank.
Qed.

Lemma handleSummarize_async_call (f : jsstring -> Settled) (st : State) :
  apiKeyMissing st || blank (inputText st) = false ->
  handleSummarize_async f st
  = (tt,
     stateOf (handleSummarize_resume (f (inputText st))
                (stateOf (handleSummarize st))),
     CallSummarizeText (inputText st)
       :: effectsOf (handleSummarize_resume (f (inputText st))
                       (stateOf (handleSummarize st)))).
Proof.
  intros H. apply orb_false_elim in H as [Hk Hb].
  unfold handleSummarize_async, bind.
  rewrite handleSummarize_call by assumption.
  now destruct (f (inputText st)).
Qed.

(** A call on [T] appears among the effects only when the guards let the
    note through, and then [T] is the note. *)
Lemma handleSummarize_async_called (f : jsstring -> Settled) (st : State)
      (T : jsstring) :
  In (CallSummarizeText T) (effectsOf (handleSummarize_async f st)) ->
  apiKeyMissing st || blank (inputText st) = false /\ T = inputText st.
Proof.
  intros H. destruct (apiKeyMissing st || blank (inputText st)) eqn:E.
  - rewrite handleSummarize_async_quiet in H by assumption. destruct H.
  - split; [reflexivity|].
    rewrite handleSummarize_async_call in H by assumption.
    destruct H as [H|H]; [congruence|].
    destruct (f (inputText st)); simpl in H; [destruct H|].
    destruct H as [H|[]]; discriminate.
Qed.

(** ** Properties of the view *)

(** C1.  For every note text [T] and every successful collaborator response
    [R] to the summarization call on [T], once [handleSummarize] has run to
    completion the stored summary is [R] and the loading flag is false;
    the same holds when the continuation runs from any state [mid] that
    other events left behind while the call was pending. *)
Theorem handleSummarize_success
        (st : State) (summarizeText : jsstring -> Settled) (T R : jsstring) :
  In (CallSummarizeText T) (effectsOf (handleSummarize_async summarizeText st)) ->
  summarizeText T = Fulfilled R ->
  (summary (stateOf (handleSummarize_async summarizeText st)) = R
   /\ isLoading (stateOf (handleSummarize_async summarizeText st)) = false)
  /\ forall mid,
       summary (stateOf (handleSummarize_resume (summarizeText T) mid)) = R
       /\ isLoading (stateOf (handleSummarize_resume (summarizeText T) mid))
          = false.
Proof.
  intros Hcall HR.
  apply handleSummarize_async_called in Hcall as [Hgo ->].
  rewrite handleSummarize_async_call by assumption.
  rewrite HR. repeat split.
Qed.

Lemma handleSummarize_success_witness :
  summary (stateOf (handleSummarize_async (always_fulfils sample_summary)
                      typed_state)) = sample_summary
  /\ isLoading (stateOf (handleSummarize_async (always_fulfils sample_summary)
                           typed_state)) = false.
Proof.
  apply (proj1 (@handleSummarize_success typed_state
                  (always_fulfils sample_summary) sample_note sample_summary
                  (or_introl eq_refl) eq_refl)).
Defined.

(** C2, as the code has it.  For every prior state and every failing
    collaborator call, once [handleSummarize] has run to completion the
    error is a non-empty string and the loading flag is false; the summary
    is the empty string that the entry of the handler stored, the failure
    path itself leaving the summary as it finds it. *)
Theorem handleSummarize_failure
        (st : State) (summarizeText : jsstring -> Settled) (T : jsstring)
        (e : Thrown) :
  In (CallSummarizeText T) (effectsOf (handleSummarize_async summarizeText st)) ->
  summarizeText T = Rejected e ->
  (exists m, error (stateOf (handleSummarize_async summarizeText st)) = Some m
             /\ m <> [])
  /\ isLoading (stateOf (handleSummarize_async summarizeText st)) = false
  /\ summary (stateOf (handleSummarize_async summarizeText st)) = lit ""
  /\ forall mid,
       summary (stateOf (handleSummarize_resume (Rejected e) mid))
       = summary mid.
Proof.
  intros Hcall HR.
  apply handleSummarize_async_called in Hcall as [Hgo ->].
  rewrite handleSummarize_async_call by assumption.
  rewrite HR. apply orb_false_elim in Hgo as [Hk Hb].
  rewrite handleSummarize_call by assumption.
  repeat split.
  exists (or_else (message e) fallbackMessage). split; [reflexivity|].
  apply truthy_true_iff, or_else_truthy. reflexivity.
Qed.

Lemma handleSummarize_failure_witness :
  summary (stateOf (handleSummarize_async (always_rejects None) typed_state))
  = lit "".
Proof.
  apply (@handleSummarize_failure typed_state (always_rejects None)
           sample_note {| message := None |}).
  - simpl. left. reflexivity.
  - reflexivity.
Defined.

(** C2 as stated fails: with an earlier summary on display, a failing call
    leaves the empty summary and not the earlier one. *)
Lemma handleSummarize_failure_counterexample :
  In (CallSummarizeText sample_note)
     (effectsOf (handleSummarize_async (always_rejects None) typed_state))
  /\ always_rejects None sample_note = Rejected {| message := None |}
  /\ summary (stateOf (handleSummarize_async (always_rejects None)
                         typed_state))
     <> summary typed_state.
Proof.
  split; [simpl; left; reflexivity|]. split; [reflexivity|]. discriminate.
Qed.

(** C3, as the code has it.  While the configuration flag is unset, for
    every note text that is empty or made of white space only,
    [handleSummarize] stores the validation error and has no effect on the
    outside world: no call to the summarization collaborator. *)
Theorem handleSummarize_blank_note
        (st : State) (summarizeText : jsstring -> Settled) :
  apiKeyMissing st = false ->
  blank (inputText st) = true ->
  error (stateOf (handleSummarize_async summarizeText st))
  = Some validationMessage
  /\ effectsOf (handleSummarize_async summarizeText st) = []
  /\ valueOf (handleSummarize st) = Returned.
Proof.
  intros Hk Hb.
  rewrite handleSummarize_async_quiet by (rewrite Hk, Hb; reflexivity).
  rewrite handleSummarize_blank by assumption. repeat split.
Qed.

Lemma handleSummarize_blank_note_witness :
  error (stateOf (handleSummarize_async (always_fulfils sample_summary)
                    (stateOf (setInputText (lit "  ") initialState))))
  = Some validationMessage.
Proof.
  apply (@handleSummarize_blank_note
           (stateOf (setInputText (lit "  ") initialState))
           (always_fulfils sample_summary)); reflexivity.
Defined.

(** C3 as stated fails when the configuration flag is set: the handler
    returns before the blank test and stores no validation error. *)
Lemma handleSummarize_blank_note_counterexample :
  blank (inputText cleared_disabled_state) = true
  /\ error (stateOf (handleSummarize cleared_disabled_state)) = None
  /\ error (stateOf (handleSummarize cleared_disabled_state))
     <> Some validationMessage.
Proof. split; [reflexivity|]. split; [reflexivity | discriminate]. Qed.

(** C4.  Whenever the configuration flag is set, [handleSummarize] is a
    no-op: the state is returned as it was and nothing is asked of the
    outside world; and through any sequence of events no summarization call
    is added to the trace. *)
Theorem handleSummarize_disabled (w : World) :
  apiKeyMissing (view w) = true ->
  handleSummarize (view w) = (Returned, view w, [])
  /\ (forall summarizeText,
         handleSummarize_async summarizeText (view w) = (tt, view w, []))
  /\ forall evs w', run w evs = Some w' ->
                    summarizeCalls (trace w') = summarizeCalls (trace w).
Proof.
  intros Hk. split; [|split].
  - now apply handleSummarize_flag.
  - intros f. rewrite handleSummarize_async_quiet by (now rewrite Hk).
    now rewrite handleSummarize_flag.
  - intros evs w'. now apply run_calls_flag.
Qed.

Lemma handleSummarize_disabled_witness :
  handleSummarize (view (boot None)) = (Returned, view (boot None), []).
Proof.
  apply (@handleSummarize_disabled (boot None)). reflexivity.
Defined.

(** C5, as the code has it.  At most one summarization request is in
    flight at any time: in every state the view can reach, at most one
    request is pending, and while the loading flag is true the Summarize
    button is rendered disabled, so no click reaches [handleSummarize]. *)
Theorem one_request_in_flight
        (API_KEY : option jsstring) (evs : list Event) (w : World) :
  run (boot API_KEY) evs = Some w ->
  inFlight w <= 1
  /\ (isLoading (view w) = true ->
      summarizeDisabled (view w) = true /\ step w ClickSummarize = None).
Proof.
  intros H.
  assert (Inv : loading_tracks_requests w).
  { eapply (run_invariant loading_tracks_requests); eauto.
    - intros; eapply step_loading_tracks_requests; eauto.
    - apply boot_loading_tracks_requests. }
  unfold loading_tracks_requests in Inv. split.
  - destruct (isLoading (view w)); lia.
  - intros Hl. unfold step, summarizeDisabled. now rewrite Hl.
Qed.

Lemma one_request_in_flight_witness :
  exists w,
    run (boot (Some (lit "key"))) [ChangeText sample_note; ClickSummarize]
    = Some w
    /\ inFlight w <= 1 /\ step w ClickSummarize = None.
Proof.
  eexists. split; [reflexivity|].
  destruct (@one_request_in_flight (Some (lit "key"))
              [ChangeText sample_note; ClickSummarize] _ eq_refl) as [H1 H2].
  split; [exact H1 | apply H2; reflexivity].
Defined.

(** C5 as stated fails: [handleSummarize] does not read the loading flag,
    and invoked while it is true it calls the collaborator again. *)
Lemma handleSummarize_loading_counterexample :
  isLoading loading_state = true
  /\ effectsOf (handleSummarize loading_state)
     = [CallSummarizeText sample_note].
Proof. split; reflexivity. Qed.

(** C6.  For every prior state, [handleClear] leaves the note text empty,
    the summary empty and the error absent, and does not touch the
    configuration flag. *)
Theorem handleClear_resets (st : State) :
  inputText (stateOf (handleClear st)) = lit ""
  /\ summary (stateOf (handleClear st)) = lit ""
  /\ error (stateOf (handleClear st)) = None
  /\ apiKeyMissing (stateOf (handleClear st)) = apiKeyMissing st.
Proof. repeat split. Qed.

(** C7, as the code has it.  If the access credential is absent (or empty)
    at startup, the configuration flag is set and the error holds the fixed
    message; no later event clears the flag, and the message stays until
    the first Clear, after which the error is absent. *)
Theorem missing_key_is_permanent
        (API_KEY : option jsstring) (evs : list Event) (w : World) :
  truthy_opt API_KEY = false ->
  run (boot API_KEY) evs = Some w ->
  apiKeyMissing (view (boot API_KEY)) = true
  /\ error (view (boot API_KEY)) = Some apiKeyMissingMessage
  /\ apiKeyMissing (view w) = true
  /\ error (view w)
     = if existsb isClickClear evs then None else Some apiKeyMissingMessage.
Proof.
  intros Hk H.
  destruct (boot_without_key _ Hk) as [Hd He].
  destruct (run_disabled_session _ Hd H) as [[Hk' _] He'].
  split; [apply Hd|]. split; [exact He|]. split; [exact Hk'|].
  now rewrite He', He.
Qed.

Lemma missing_key_is_permanent_witness :
  exists w,
    run (boot None) [ChangeText sample_note; ClickCopyNote;
                     ClipboardSettles 0 true; TimerFires 0] = Some w
    /\ apiKeyMissing (view w) = true
    /\ error (view w) = Some apiKeyMissingMessage.
Proof.
  eexists. split; [reflexivity|].
  destruct (@missing_key_is_permanent None
              [ChangeText sample_note; ClickCopyNote;
               ClipboardSettles 0 true; TimerFires 0] _ eq_refl eq_refl)
    as (_ & _ & Hk & He).
  split; [exact Hk | exact He].
Defined.

(** C7 as stated fails: Clear removes the startup message while the flag
    stays set. *)
Lemma missing_key_message_counterexample :
  option_map (fun w => (apiKeyMissing (view w), error (view w)))
    (run (boot None) [ClickClear])
  = Some (true, None).
Proof. reflexivity. Qed.

(** C8.  When the collaborator call fails, the stored error is the
    collaborator's message whenever one is present, and the generic
    fallback otherwise.  A message is present when the thrown value carries
    a non-empty one: an error made without a message carries the empty
    string, which [e.message || ...] takes as no message at all. *)
Theorem failure_message (e : Thrown) (mid : State) :
  (forall m, message e = Some m -> m <> [] ->
             error (stateOf (handleSummarize_resume (Rejected e) mid))
             = Some m)
  /\ (message e = None \/ message e = Some [] ->
      error (stateOf (handleSummarize_resume (Rejected e) mid))
      = Some fallbackMessage).
Proof.
  rewrite handleSummarize_resume_rejected. unfold stateOf. simpl. split.
  - intros m -> Hm. apply truthy_true_iff in Hm. simpl. now rewrite Hm.
  - intros [-> | ->]; reflexivity.
Qed.

Lemma failure_message_witness :
  error (stateOf (handleSummarize_resume
                    (Rejected {| message := Some (lit "quota exceeded") |})
                    loading_state))
  = Some (lit "quota exceeded")
  /\ error (stateOf (handleSummarize_resume
                       (Rejected {| message := None |}) loading_state))
     = Some fallbackMessage.
Proof.
  split.
  - apply (proj1 (@failure_message
                    {| message := Some (lit "quota exceeded") |}
                    loading_state)); [reflexivity | discriminate].
  - apply (proj2 (@failure_message {| message := None |} loading_state)).
    left. reflexivity.
Defined.

(** C9.  With the empty string as text, [copyToClipboard] returns at once:
    no clipboard write, nothing awaited and so no notification later, and
    the state, the pending continuations and the trace are as before. *)
Theorem copyToClipboard_empty_noop (type : jsstring) (w : World) :
  copyToClipboard (lit "") type (view w) = (Returned, view w, [])
  /\ view (dispatch (copyToClipboard (lit "") type) awaited w) = view w
  /\ pending (dispatch (copyToClipboard (lit "") type) awaited w) = pending w
  /\ trace (dispatch (copyToClipboard (lit "") type) awaited w) = trace w.
Proof.
  unfold dispatch. simpl. repeat split; apply app_nil_r.
Qed.

Lemma truthy_app (a b : jsstring) :
  truthy (a ++ b) = truthy a || truthy b.
Proof. now destruct a. Qed.

(** C10.  For every non-empty text made of white space only,
    [copyToClipboard] writes it to the clipboard and, whether the write
    succeeds or fails, shows a notification and arms its timer; the guard
    tests emptiness and does not trim, whereas [handleSummarize] on the
    same text as note makes no call. *)
Theorem copyToClipboard_whitespace (text type : jsstring) (st : State) :
  text <> [] ->
  blank text = true ->
  copyToClipboard text type st
  = (AwaitClipboardWrite text type, st, [ClipboardWriteText text])
  /\ (forall ok mid,
         exists msg,
           copyNotification (stateOf (copyToClipboard_resume type ok mid))
           = Some msg
           /\ truthy msg = true
           /\ In (SetTimeout copyDelay)
                (effectsOf (copyToClipboard_resume type ok mid)))
  /\ forall summarizeText st',
       inputText st' = text ->
       summarizeCalls (effectsOf (handleSummarize_async summarizeText st'))
       = [].
Proof.
  intros Hne Hb. split; [now apply copyToClipboard_write|]. split.
  - intros [|] mid; eexists; (split; [reflexivity|]); split.
    + rewrite truthy_app. apply orb_true_r.
    + simpl. auto.
    + reflexivity.
    + simpl. auto.
  - intros f st' <-.
    rewrite handleSummarize_async_quiet; [reflexivity|].
    rewrite Hb. apply orb_true_r.
Qed.

Lemma copyToClipboard_whitespace_witness :
  copyToClipboard (lit "  ") (lit "Summary") initialState
  = (AwaitClipboardWrite (lit "  ") (lit "Summary"), initialState,
     [ClipboardWriteText (lit "  ")]).
Proof.
  apply (@copyToClipboard_whitespace (lit "  ") (lit "Summary") initialState);
    [discriminate | reflexivity].
Defined.

(** ** More on the queue of continuations *)

Section QueueFacts.

Context {A : Type}.

Lemma In_remove_nth (i : nat) (l : list A) (x : A) :
  In x (remove_nth i l) -> In x l.
Proof.
  revert i. induction l as [|y r IH]; intros [|j]; simpl; auto.
  intros [H|H]; eauto.
Qed.

Lemma length_remove_nth (i : nat) (l : list A) (p : A) :
  nth_error l i = Some p ->
  S (List.length (remove_nth i l)) = List.length l.
Proof.
  revert i. induction l as [|y r IH]; intros [|j] H; simpl in *;
    try discriminate; auto.
Qed.

Lemma remove_nth_last (l : list A) (x : A) :
  remove_nth (List.length l) (l ++ [x]) = l.
Proof. induction l as [|y r IH]; simpl; congruence. Qed.

Lemma remove_nth_app_l (i : nat) (l l' : list A) :
  i < List.length l -> remove_nth i (l ++ l') = remove_nth i l ++ l'.
Proof.
  revert i. induction l as [|y r IH]; intros [|j] H; simpl in *;
    try lia; auto.
  rewrite IH by lia. reflexivity.
Qed.

Lemma nth_error_remove_nth (j i : nat) (l : list A) :
  i <> j -> nth_error (remove_nth j l) (shifted j i) = nth_error l i.
Proof.
  unfold shifted. revert j i.
  induction l as [|y r IH]; intros j i Hij.
  - simpl. destruct j; now rewrite !nth_error_nil.
  - destruct j as [|j], i as [|i]; simpl; try congruence.
    + now rewrite Nat.sub_0_r.
    + assert (Hij' : i <> j) by congruence.
      specialize (IH j i Hij').
      change (Nat.ltb (S j) (S i)) with (Nat.ltb j i).
      destruct (Nat.ltb j i) eqn:E.
      * apply Nat.ltb_lt in E. rewrite Nat.sub_0_r.
        destruct i as [|i]; [lia|]. simpl in *.
        now rewrite Nat.sub_0_r in IH.
      * exact IH.
Qed.

Lemma filter_pos_nth (f : A -> bool) (l : list A) :
  0 < List.length (filter f l) ->
  exists i x, nth_error l i = Some x /\ f x = true.
Proof.
  induction l as [|y r IH]; simpl; [lia|].
  destruct (f y) eqn:E.
  - intros _. exists 0, y. auto.
  - intros H. destruct (IH H) as (i & x & Hi & Hx). exists (S i), x. auto.
Qed.

Lemma filter_nil_none (f : A -> bool) (l : list A) (x : A) :
  List.length (filter f l) = 0 -> In x l -> f x = false.
Proof.
  intros H Hin. destruct (f x) eqn:E; [|reflexivity].
  assert (Hf : In x (filter f l)) by (apply filter_In; auto).
  destruct (filter f l); [destruct Hf | discriminate].
Qed.

End QueueFacts.

Lemma pending_dispatch {A} (h : M A) (susp : A -> list Pending) (w : World) :
  pending (dispatch h susp w)
  = pending w ++ susp (valueOf (h (view w)))
      ++ flat_map timerOf (effectsOf (h (view w))).
Proof.
  unfold dispatch, valueOf, effectsOf.
  now destruct (h (view w)) as [[a st'] out].
Qed.

Lemma no_request_when_idle (w : World) (T : jsstring) :
  inFlight w = 0 -> ~ In (PendingSummarize T) (pending w).
Proof.
  intros H Hin.
  pose proof (filter_nil_none isPendingSummarize _ _ H Hin). discriminate.
Qed.

Lemma request_in_queue_grows
      (l new : list Pending) (out : list Effect) (T : jsstring) :
  In (PendingSummarize T) (l ++ new ++ flat_map timerOf out) ->
  In (PendingSummarize T) l \/ In (PendingSummarize T) new.
Proof.
  rewrite !in_app_iff. intros [H|[H|H]]; auto.
  exfalso. apply in_flat_map in H as (e & _ & He).
  destruct e; simpl in He; try destruct He as [He|[]]; try discriminate;
    try contradiction.
Qed.

(** No handler but the mount effect writes the configuration flag. *)
Lemma step_flag_frame (w w' : World) (ev : Event) :
  step w ev = Some w' -> apiKeyMissing (view w') = apiKeyMissing (view w).
Proof.
  intros H. destruct ev; step_inv H; rewrite view_dispatch;
    try rewrite copyToClipboard_state; try reflexivity.
  - apply summarizeDisabled_false in Hgate as (_ & Hk & Hb).
    rewrite handleSummarize_call by assumption. simpl. congruence.
  - now destruct o.
  - now destruct ok.
Qed.

Lemma run_flag_frame (evs : list Event) (w w' : World) :
  run w evs = Some w' -> apiKeyMissing (view w') = apiKeyMissing (view w).
Proof.
  revert w. induction evs as [|ev rest IH]; simpl; intros w H.
  - now injection H as <-.
  - destruct (step w ev) as [w1|] eqn:E; [|discriminate].
    rewrite (IH _ H). eapply step_flag_frame; eauto.
Qed.

Lemma boot_flag (k : option jsstring) :
  apiKeyMissing (view (boot k)) = negb (truthy_opt k).
Proof. unfold boot, startupEffect. now destruct (truthy_opt k). Qed.

Lemma boot_pending (k : option jsstring) : pending (boot k) = [].
Proof. unfold boot, startupEffect. now destruct (truthy_opt k). Qed.

Lemma boot_trace (k : option jsstring) : trace (boot k) = [].
Proof. unfold boot, startupEffect. now destruct (truthy_opt k). Qed.

Lemma copyToClipboard_awaits_no_request
      (text type : jsstring) (st : State) (T : jsstring) :
  ~ In (PendingSummarize T) (awaited (valueOf (copyToClipboard text type st))).
Proof.
  destruct text; simpl; intros H; [exact H|].
  destruct H as [H|[]]. discriminate.
Qed.

Lemma step_request_matches_view (w w' : World) (ev : Event) :
  coherent w -> step w ev = Some w' -> request_matches_view w'.
Proof.
  intros [Hl Inv] H T Hin.
  destruct ev; step_inv H; rewrite pending_dispatch in Hin;
    apply request_in_queue_grows in Hin; rewrite view_dispatch.
  - destruct Hin as [Hin|[]].
    destruct (Inv _ Hin) as (Hload & _). unfold textareaDisabled in Hgate.
    congruence.
  - apply summarizeDisabled_false in Hgate as (Hload & Hk & Hb).
    rewrite handleSummarize_call in * by assumption.
    destruct Hin as [Hin|Hin].
    + destruct (Inv _ Hin) as (Hload' & _). congruence.
    + destruct Hin as [Hin|[]]. injection Hin as <-. simpl. repeat split; assumption || reflexivity.
  - destruct Hin as [Hin|[]].
    destruct (Inv _ Hin) as (Hload & _). unfold clearDisabled in Hgate.
    congruence.
  - rewrite copyToClipboard_state.
    destruct Hin as [Hin|Hin]; [now apply Inv|].
    now apply copyToClipboard_awaits_no_request in Hin.
  - rewrite copyToClipboard_state.
    destruct Hin as [Hin|Hin]; [now apply Inv|].
    now apply copyToClipboard_awaits_no_request in Hin.
  - destruct Hin as [Hin|[]]. exfalso.
    unfold loading_tracks_requests in Hl.
    rewrite (inFlight_unqueue _ _ Hq) in Hl. simpl in Hl.
    apply (@no_request_when_idle (unqueue i w) T); [|exact Hin].
    destruct (isLoading (view w)); lia.
  - destruct Hin as [Hin|[]]. simpl in Hin. apply In_remove_nth in Hin.
    destruct ok; simpl; now apply Inv.
  - destruct Hin as [Hin|[]]. simpl in Hin. apply In_remove_nth in Hin.
    simpl. now apply Inv.
Qed.

Lemma step_coherent (w w' : World) (ev : Event) :
  coherent w -> step w ev = Some w' -> coherent w'.
Proof.
  intros Hc H. split.
  - eapply step_loading_tracks_requests; [apply Hc | exact H].
  - eapply step_request_matches_view; eauto.
Qed.

Lemma boot_coherent (k : option jsstring) : coherent (boot k).
Proof.
  split; [apply boot_loading_tracks_requests|].
  intros T Hin. rewrite boot_pending in Hin. destruct Hin.
Qed.

Lemma run_coherent (k : option jsstring) (evs : list Event) (w : World) :
  run (boot k) evs = Some w -> coherent w.
Proof.
  intros H. eapply (run_invariant coherent); eauto using step_coherent.
  apply boot_coherent.
Qed.

(** While the view is loading, exactly one request sits in the queue. *)
Lemma loading_has_request (w : World) :
  coherent w -> isLoading (view w) = true ->
  exists i, nth_error (pending w) i
            = Some (PendingSummarize (inputText (view w))).
Proof.
  intros [Hl Inv] Hload. unfold loading_tracks_requests in Hl.
  rewrite Hload in Hl.
  destruct (@filter_pos_nth _ isPendingSummarize (pending w))
    as (i & p & Hi & Hp); [unfold inFlight in Hl; lia|].
  destruct p as [T| |]; try discriminate.
  exists i. rewrite Hi.
  destruct (Inv T) as (_ & <- & _); [eapply nth_error_In; eauto|].
  reflexivity.
Qed.

(** ** What is stored and what is asked of the outside world *)

Lemma copy_messages_nonempty (type : jsstring) (ok : bool) (st : State) :
  exists msg,
    copyNotification (stateOf (copyToClipboard_resume type ok st)) = Some msg
    /\ truthy msg = true.
Proof.
  destruct ok; eexists; (split; [reflexivity|]).
  - rewrite truthy_app. apply orb_true_r.
  - reflexivity.
Qed.

Lemma step_messages_nonempty (w w' : World) (ev : Event) :
  messages_nonempty w -> step w ev = Some w' -> messages_nonempty w'.
Proof.
  intros [He Hn] H.
  destruct ev; step_inv H; unfold messages_nonempty; rewrite view_dispatch;
    try rewrite copyToClipboard_state; try (split; assumption).
  - apply summarizeDisabled_false in Hgate as (_ & Hk & Hb).
    rewrite handleSummarize_call by assumption. simpl.
    split; [discriminate | assumption].
  - simpl. split; discriminate.
  - destruct o; simpl; [split; assumption|]. split; [|assumption].
    intros E. injection E as E.
    pose proof (@or_else_truthy (message e) fallbackMessage eq_refl) as Ht.
    rewrite E in Ht. discriminate.
  - destruct (copy_messages_nonempty type ok (view (unqueue i w)))
      as (msg & Hm & Ht).
    split.
    + destruct ok; exact He.
    + rewrite Hm. intros E. injection E as ->. discriminate.
  - simpl. split; [assumption | discriminate].
Qed.

Lemma boot_messages_nonempty (k : option jsstring) :
  messages_nonempty (boot k).
Proof.
  unfold messages_nonempty, boot, startupEffect.
  destruct (truthy_opt k); simpl; split; discriminate.
Qed.

Lemma no_call_in (out : list Effect) (T : jsstring) :
  summarizeCalls out = [] -> ~ In (CallSummarizeText T) out.
Proof.
  intros H Hin.
  assert (Hf : In (CallSummarizeText T) (summarizeCalls out))
    by (apply filter_In; auto).
  rewrite H in Hf. destruct Hf.
Qed.

(** Only a click on Summarize adds a call to the trace. *)
Lemma step_new_call (w w' : World) (ev : Event) (T : jsstring) :
  step w ev = Some w' ->
  In (CallSummarizeText T) (trace w') ->
  In (CallSummarizeText T) (trace w)
  \/ (ev = ClickSummarize /\ T = inputText (view w)
      /\ blank T = false /\ apiKeyMissing (view w) = false).
Proof.
  intros H Hin.
  destruct ev; step_inv H; rewrite trace_dispatch in Hin;
    apply in_app_or in Hin as [Hin|Hin]; auto.
  - destruct Hin.
  - right. apply summarizeDisabled_false in Hgate as (_ & Hk & Hb).
    rewrite handleSummarize_call in Hin by assumption.
    destruct Hin as [Hin|[]]. injection Hin as <-. auto.
  - destruct Hin.
  - exfalso. eapply no_call_in; [|exact Hin]. apply copyToClipboard_no_call.
  - exfalso. eapply no_call_in; [|exact Hin]. apply copyToClipboard_no_call.
  - exfalso. eapply no_call_in; [|exact Hin]. now destruct o.
  - exfalso. eapply no_call_in; [|exact Hin]. now destruct ok.
  - destruct Hin.
Qed.

Lemma step_calls_guarded (w w' : World) (ev : Event) :
  calls_guarded w -> step w ev = Some w' -> calls_guarded w'.
Proof.
  intros Inv H T Hin. rewrite (step_flag_frame _ _ H).
  destruct (step_new_call _ _ _ H Hin) as [Hold | (_ & _ & Hb & Hk)]; auto.
Qed.

Lemma boot_calls_guarded (k : option jsstring) : calls_guarded (boot k).
Proof. intros T Hin. rewrite boot_trace in Hin. destruct Hin. Qed.

Lemma copyToClipboard_writes (text type : jsstring) (st : State) (t : jsstring) :
  In (ClipboardWriteText t) (effectsOf (copyToClipboard text type st)) ->
  t = text /\ text <> [].
Proof.
  destruct text; simpl; [intros []|].
  intros [H|[]]. injection H as <-. split; [reflexivity | discriminate].
Qed.

Lemma step_writes_nonempty (w w' : World) (ev : Event) :
  writes_nonempty w -> step w ev = Some w' -> writes_nonempty w'.
Proof.
  intros Inv H t Hin.
  destruct ev; step_inv H; rewrite trace_dispatch in Hin;
    apply in_app_or in Hin as [Hin|Hin]; auto;
    try (apply copyToClipboard_writes in Hin as [-> Hne]; exact Hne);
    exfalso.
  - apply summarizeDisabled_false in Hgate as (_ & Hk & Hb).
    rewrite handleSummarize_call in Hin by assumption.
    destruct Hin as [Hin|[]]. discriminate.
  - destruct o; simpl in Hin; [destruct Hin|].
    destruct Hin as [Hin|[]]. discriminate.
  - destruct ok; simpl in Hin.
    + destruct Hin as [Hin|[]]. discriminate.
    + destruct Hin as [Hin|[Hin|[]]]; discriminate.
Qed.

(** ** Further properties of the view *)

(** X1.  When the credential is present and not empty, the mount effect
    changes nothing: the view starts from the initial state, the
    configuration flag stays unset whatever happens later, and the
    Summarize button is disabled exactly while a request is loading or the
    note is blank. *)
Theorem key_present_session
        (API_KEY : option jsstring) (evs : list Event) (w : World) :
  truthy_opt API_KEY = true ->
  run (boot API_KEY) evs = Some w ->
  view (boot API_KEY) = initialState
  /\ apiKeyMissing (view w) = false
  /\ summarizeDisabled (view w)
     = isLoading (view w) || blank (inputText (view w)).
Proof.
  intros Hk H.
  assert (Hflag : apiKeyMissing (view w) = false).
  { rewrite (run_flag_frame _ _ H), boot_flag, Hk. reflexivity. }
  split; [|split].
  - unfold boot, startupEffect. now rewrite Hk.
  - exact Hflag.
  - unfold summarizeDisabled.
    now rewrite Hflag, truthy_trim, negb_involutive, orb_false_r.
Qed.

Lemma key_present_session_witness :
  exists w,
    run (boot (Some (lit "key"))) [ChangeText sample_note; ClickSummarize]
    = Some w
    /\ apiKeyMissing (view w) = false.
Proof.
  eexists. split; [reflexivity|].
  apply (@key_present_session (Some (lit "key"))
           [ChangeText sample_note; ClickSummarize] _ eq_refl eq_refl).
Defined.

(** X2.  A request in flight is always the one for the note on display:
    the textarea and Clear are disabled while it is pending, so when the
    promise fulfils with [R] the view holds that same note, [R] as its
    summary, no error, and is no longer loading. *)
Theorem summary_is_for_displayed_note
        (API_KEY : option jsstring) (evs : list Event) (w : World)
        (i : nat) (T R : jsstring) :
  run (boot API_KEY) evs = Some w ->
  nth_error (pending w) i = Some (PendingSummarize T) ->
  inputText (view w) = T
  /\ exists w',
      step w (SummarizeTextSettles i (Fulfilled R)) = Some w'
      /\ inputText (view w') = T
      /\ summary (view w') = R
      /\ error (view w') = None
      /\ isLoading (view w') = false.
Proof.
  intros H Hi.
  destruct (run_coherent _ _ H) as [_ Inv].
  destruct (Inv T) as (_ & Hnote & _ & _ & Herr & _);
    [eapply nth_error_In; eauto|].
  split; [exact Hnote|].
  simpl. rewrite Hi. eexists. split; [reflexivity|].
  rewrite view_dispatch. simpl. auto.
Qed.

Lemma summary_is_for_displayed_note_witness :
  exists w,
    run (boot (Some (lit "key"))) [ChangeText sample_note; ClickSummarize]
    = Some w
    /\ inputText (view w) = sample_note.
Proof.
  eexists. split; [reflexivity|].
  apply (@summary_is_for_displayed_note (Some (lit "key"))
           [ChangeText sample_note; ClickSummarize] _ 0 sample_note
           sample_summary eq_refl eq_refl).
Defined.

(** X3.  Loading always ends: whenever the view is loading, a request is
    pending, and however it settles the loading flag goes off, nothing is
    left in flight and the Summarize button is enabled again. *)
Theorem loading_always_ends
        (API_KEY : option jsstring) (evs : list Event) (w : World) :
  run (boot API_KEY) evs = Some w ->
  isLoading (view w) = true ->
  exists i, forall o, exists w',
    step w (SummarizeTextSettles i o) = Some w'
    /\ isLoading (view w') = false
    /\ inFlight w' = 0
    /\ summarizeDisabled (view w') = false.
Proof.
  intros H Hload.
  pose proof (run_coherent _ _ H) as Hc.
  destruct (loading_has_request Hc Hload) as (i & Hi).
  destruct Hc as [Hl Inv].
  destruct (Inv (inputText (view w))) as (_ & _ & Hb & _ & _ & Hk);
    [eapply nth_error_In; eauto|].
  exists i. intros o.
  assert (Hstep : step w (SummarizeTextSettles i o)
                  = Some (dispatch (handleSummarize_resume o) nothing
                            (unqueue i w)))
    by (simpl; now rewrite Hi).
  eexists. split; [exact Hstep|].
  assert (Hoff : isLoading (view (dispatch (handleSummarize_resume o) nothing
                                    (unqueue i w))) = false)
    by (rewrite view_dispatch; now destruct o).
  split; [exact Hoff|]. split.
  - pose proof (@step_loading_tracks_requests _ _ _ Hl Hstep) as Hl'.
    unfold loading_tracks_requests in Hl'. now rewrite Hoff in Hl'.
  - unfold summarizeDisabled. rewrite Hoff, truthy_trim.
    rewrite view_dispatch. destruct o; simpl; now rewrite Hk, Hb.
Qed.

Lemma loading_always_ends_witness :
  exists w,
    run (boot (Some (lit "key"))) [ChangeText sample_note; ClickSummarize]
    = Some w
    /\ exists i, forall o, exists w',
         step w (SummarizeTextSettles i o) = Some w'
         /\ isLoading (view w') = false
         /\ inFlight w' = 0
         /\ summarizeDisabled (view w') = false.
Proof.
  eexists. split; [reflexivity|].
  apply (@loading_always_ends (Some (lit "key"))
           [ChangeText sample_note; ClickSummarize] _ eq_refl eq_refl).
Defined.

(** X4.  A click that gets through the Summarize button always reaches the
    collaborator: one call, on the note exactly as typed, is added to the
    trace and queued, the view turns to loading with the summary and the
    error cleared; the validation error of [handleSummarize] is never the
    outcome of a click. *)
Theorem summarize_click_always_calls (w w' : World) :
  step w ClickSummarize = Some w' ->
  trace w' = trace w ++ [CallSummarizeText (inputText (view w))]
  /\ pending w' = pending w ++ [PendingSummarize (inputText (view w))]
  /\ isLoading (view w') = true
  /\ summary (view w') = lit ""
  /\ error (view w') = None
  /\ inputText (view w') = inputText (view w).
Proof.
  intros H. step_inv H.
  apply summarizeDisabled_false in Hgate as (_ & Hk & Hb).
  rewrite trace_dispatch, pending_dispatch, view_dispatch.
  rewrite handleSummarize_call by assumption. simpl. repeat split.
Qed.

Lemma summarize_click_always_calls_witness :
  exists w',
    step (dispatch (setInputText sample_note) nothing
            (boot (Some (lit "key")))) ClickSummarize = Some w'
    /\ trace w' = [CallSummarizeText sample_note].
Proof.
  eexists. split; [reflexivity|].
  apply (@summarize_click_always_calls
           (dispatch (setInputText sample_note) nothing
              (boot (Some (lit "key")))) _ eq_refl).
Defined.

(** X5.  Over the whole life of the view, the collaborator is called only
    when a credential was present at startup, and only on notes that are
    not blank. *)
Theorem collaborator_calls_guarded
        (API_KEY : option jsstring) (evs : list Event) (w : World)
        (T : jsstring) :
  run (boot API_KEY) evs = Some w ->
  In (CallSummarizeText T) (trace w) ->
  blank T = false /\ truthy_opt API_KEY = true.
Proof.
  intros H Hin.
  assert (Inv : calls_guarded w).
  { eapply (run_invariant calls_guarded); eauto using step_calls_guarded.
    apply boot_calls_guarded. }
  destruct (Inv _ Hin) as [Hb Hk]. split; [exact Hb|].
  rewrite (run_flag_frame _ _ H), boot_flag in Hk.
  now destruct (truthy_opt API_KEY).
Qed.

Lemma collaborator_calls_guarded_witness :
  blank sample_note = false /\ truthy_opt (Some (lit "key")) = true.
Proof.
  apply (@collaborator_calls_guarded (Some (lit "key"))
           [ChangeText sample_note; ClickSummarize]
           _ sample_note eq_refl).
  simpl. left. reflexivity.
Defined.

(** X6.  Over the whole life of the view, the clipboard is never handed the
    empty string. *)
Theorem clipboard_never_empty
        (API_KEY : option jsstring) (evs : list Event) (w : World)
        (t : jsstring) :
  run (boot API_KEY) evs = Some w ->
  In (ClipboardWriteText t) (trace w) ->
  t <> [].
Proof.
  intros H Hin.
  assert (Inv : writes_nonempty w).
  { eapply (run_invariant writes_nonempty); eauto using step_writes_nonempty.
    intros t' Hin'. rewrite boot_trace in Hin'. destruct Hin'. }
  now apply Inv.
Qed.

Lemma clipboard_never_empty_witness : sample_note <> [].
Proof.
  apply (@clipboard_never_empty None [ChangeText sample_note; ClickCopyNote]
           _ sample_note eq_refl).
  simpl. left. reflexivity.
Defined.

Lemma nth_error_last (A : Type) (l : list A) (x : A) :
  nth_error (l ++ [x]) (List.length l) = Some x.
Proof. induction l as [|y r IH]; simpl; auto. Qed.

Lemma copyNoteDisabled_false (st : State) :
  copyNoteDisabled st = false ->
  isLoading st = false /\ blank (inputText st) = false.
Proof.
  unfold copyNoteDisabled. rewrite truthy_trim, negb_involutive.
  destruct (isLoading st), (blank (inputText st)); simpl; intros;
    try discriminate; auto.
Qed.

Lemma blank_false_nonempty (s : jsstring) : blank s = false -> s <> [].
Proof. intros H ->. discriminate. Qed.

Lemma dispatch_copyToClipboard (text type : jsstring) (w : World) :
  text <> [] ->
  dispatch (copyToClipboard text type) awaited w
  = {| view := view w;
       pending := pending w ++ [PendingClipboard text type];
       trace := trace w ++ [ClipboardWriteText text] |}.
Proof.
  intros H. unfold dispatch. now rewrite copyToClipboard_write.
Qed.

(** The state of the queue and of the toast once a clipboard write has
    settled. *)
Lemma clipboard_settles_step
      (w : World) (i : nat) (text type : jsstring) (ok : bool) :
  nth_error (pending w) i = Some (PendingClipboard text type) ->
  exists w1 msg,
    step w (ClipboardSettles i ok) = Some w1
    /\ copyNotification (view w1) = Some msg
    /\ truthy msg = true
    /\ pending w1 = remove_nth i (pending w) ++ [PendingTimer copyDelay].
Proof.
  intros Hi. simpl. rewrite Hi.
  destruct (copy_messages_nonempty type ok (view w)) as (msg & Hm & Ht).
  eexists. exists msg. split; [reflexivity|].
  rewrite view_dispatch, pending_dispatch. simpl.
  split; [exact Hm|]. split; [exact Ht|]. now destruct ok.
Qed.

(** X7.  A click that gets through a copy button always writes: Copy Note
    hands the clipboard the note, which is then not blank, Copy Summary the
    summary, which is then not empty; the view itself does not change until
    the write settles. *)
Theorem copy_buttons_write (w w' : World) :
  (step w ClickCopyNote = Some w' ->
   blank (inputText (view w)) = false
   /\ trace w' = trace w ++ [ClipboardWriteText (inputText (view w))]
   /\ pending w'
      = pending w ++ [PendingClipboard (inputText (view w)) (lit "Note")]
   /\ view w' = view w)
  /\ (step w ClickCopySummary = Some w' ->
      summary (view w) <> []
      /\ trace w' = trace w ++ [ClipboardWriteText (summary (view w))]
      /\ pending w'
         = pending w ++ [PendingClipboard (summary (view w)) (lit "Summary")]
      /\ view w' = view w).
Proof.
  split; intros H; step_inv H.
  - apply copyNoteDisabled_false in Hgate as [_ Hb].
    rewrite dispatch_copyToClipboard by (now apply blank_false_nonempty).
    simpl. auto.
  - unfold copySummaryShown in Hgate.
    apply andb_true_iff in Hgate as [Hs _]. apply truthy_true_iff in Hs.
    rewrite dispatch_copyToClipboard by assumption. simpl. auto.
Qed.

Lemma copy_buttons_write_witness :
  exists w',
    step (dispatch (setInputText sample_note) nothing (boot None))
      ClickCopyNote = Some w'
    /\ trace w' = [ClipboardWriteText sample_note].
Proof.
  eexists. split; [reflexivity|].
  apply (proj1 (@copy_buttons_write
                  (dispatch (setInputText sample_note) nothing (boot None))
                  _) eq_refl).
Defined.

Lemma copyToClipboard_resume_notification
      (type : jsstring) (ok : bool) (st : State) :
  copyNotification (stateOf (copyToClipboard_resume type ok st))
  = Some (if ok then type ++ lit " copied to clipboard!"
          else lit "Failed to copy " ++ type ++ lit ".").
Proof. now destruct ok. Qed.

(** X8.  Whatever the label, the notification of a successful copy and
    that of a failed copy are different texts. *)
Theorem copy_messages_differ (type : jsstring) (mid : State) :
  copyNotification (stateOf (copyToClipboard_resume type true mid))
  <> copyNotification (stateOf (copyToClipboard_resume type false mid)).
Proof.
  rewrite !copyToClipboard_resume_notification. intros E. injection E as E.
  apply (f_equal (@rev N)) in E. unfold lit in E. simpl in E.
  rewrite !rev_app_distr in E. simpl in E. discriminate.
Qed.

(** X9.  The toast of a copy: once the clipboard write settles, with
    either outcome, a notification is up and one timer of 2000 ms has
    joined the queue; when that timer fires the notification is gone and
    the queue is what it was without the write. *)
Theorem copy_notification_lifecycle
        (w : World) (i : nat) (text type : jsstring) (ok : bool) :
  nth_error (pending w) i = Some (PendingClipboard text type) ->
  exists w1 w2,
    step w (ClipboardSettles i ok) = Some w1
    /\ toastShown (view w1) = true
    /\ pending w1 = remove_nth i (pending w) ++ [PendingTimer 2000]
    /\ step w1 (TimerFires (List.length (pending w) - 1)) = Some w2
    /\ copyNotification (view w2) = None
    /\ toastShown (view w2) = false
    /\ pending w2 = remove_nth i (pending w).
Proof.
  intros Hi.
  destruct (clipboard_settles_step w i ok Hi) as (w1 & msg & H1 & Hm & Ht & Hp).
  pose proof (length_remove_nth _ _ Hi) as Hlen.
  assert (Hn : List.length (pending w) - 1
               = List.length (remove_nth i (pending w))) by lia.
  exists w1. eexists. split; [exact H1|].
  split; [unfold toastShown; now rewrite Hm|].
  split; [exact Hp|].
  unfold step. rewrite Hp, Hn, nth_error_last.
  split; [reflexivity|].
  rewrite view_dispatch, pending_dispatch. simpl.
  rewrite Hp, remove_nth_last, app_nil_r. auto.
Qed.

Lemma copy_notification_lifecycle_witness :
  exists w1 w2,
    step copy_pending_world (ClipboardSettles 0 true) = Some w1
    /\ toastShown (view w1) = true
    /\ pending w1 = [PendingTimer 2000]
    /\ step w1 (TimerFires 0) = Some w2
    /\ copyNotification (view w2) = None
    /\ toastShown (view w2) = false
    /\ pending w2 = [].
Proof.
  apply (@copy_notification_lifecycle copy_pending_world 0 sample_note
           (lit "Note") true eq_refl).
Defined.

(** X10.  Timers are never cancelled: when a copy settles while the timer
    of an earlier copy is still pending, that earlier timer, on firing,
    takes down the new notification while the new timer is still queued. *)
Theorem older_timer_clears_newer_toast
        (w : World) (i j : nat) (d : N) (text type : jsstring) (ok : bool) :
  nth_error (pending w) i = Some (PendingTimer d) ->
  nth_error (pending w) j = Some (PendingClipboard text type) ->
  exists w1 w2,
    step w (ClipboardSettles j ok) = Some w1
    /\ toastShown (view w1) = true
    /\ step w1 (TimerFires (shifted j i)) = Some w2
    /\ toastShown (view w2) = false
    /\ pending w2
       = remove_nth (shifted j i) (remove_nth j (pending w))
           ++ [PendingTimer copyDelay].
Proof.
  intros Hi Hj.
  assert (Hij : i <> j) by (intros ->; congruence).
  destruct (clipboard_settles_step w j ok Hj) as (w1 & msg & H1 & Hm & Ht & Hp).
  pose proof (nth_error_remove_nth (pending w) Hij) as Hs. rewrite Hi in Hs.
  assert (Hlt : shifted j i < List.length (remove_nth j (pending w)))
    by (apply nth_error_Some; congruence).
  exists w1. eexists. split; [exact H1|].
  split; [unfold toastShown; now rewrite Hm|].
  unfold step. rewrite Hp, nth_error_app1, Hs by exact Hlt.
  split; [reflexivity|].
  rewrite view_dispatch, pending_dispatch. simpl.
  rewrite Hp, remove_nth_app_l, app_nil_r by exact Hlt. auto.
Qed.

Lemma older_timer_clears_newer_toast_witness :
  exists w1 w2,
    step second_copy_world (ClipboardSettles 1 true) = Some w1
    /\ toastShown (view w1) = true
    /\ step w1 (TimerFires 0) = Some w2
    /\ toastShown (view w2) = false
    /\ pending w2 = [PendingTimer copyDelay].
Proof.
  apply (@older_timer_clears_newer_toast second_copy_world 0 1 copyDelay
           (lit "old summary") (lit "Summary") true eq_refl eq_refl).
Defined.

(** The world once the request at position [i] has settled, written out. *)
Lemma summarize_settles_step
      (w : World) (i : nat) (T : jsstring) (o : Settled) :
  coherent w ->
  nth_error (pending w) i = Some (PendingSummarize T) ->
  step w (SummarizeTextSettles i o)
  = Some {| view :=
              {| inputText := T;
                 summary := match o with
                            | Fulfilled R => R
                            | Rejected _ => lit ""
                            end;
                 isLoading := false;
                 error := match o with
                          | Fulfilled _ => None
                          | Rejected e =>
                              Some (or_else (message e) fallbackMessage)
                          end;
                 apiKeyMissing := false;
                 copyNotification := copyNotification (view w) |};
            pending := remove_nth i (pending w);
            trace := trace w
                     ++ match o with
                        | Fulfilled _ => []
                        | Rejected e =>
                            [ConsoleError (lit "Summarization error:")
                               (Some e)]
                        end |}.
Proof.
  intros [Hl Inv] Hi.
  destruct (Inv T) as (_ & Hnote & _ & Hsum & Herr & Hk);
    [eapply nth_error_In; eauto|].
  simpl. rewrite Hi. f_equal. unfold dispatch.
  destruct o; simpl; rewrite !app_nil_r, Hnote, Hk, ?Hsum, ?Herr;
    reflexivity.
Qed.

Lemma step_disabled_summary (w w' : World) (ev : Event) :
  disabled_session w -> summary (view w) = lit "" ->
  step w ev = Some w' -> summary (view w') = lit "".
Proof.
  intros [Hk Hn] Hs H.
  destruct ev; step_inv H; rewrite view_dispatch;
    try rewrite copyToClipboard_state; try assumption; try reflexivity.
  - apply summarizeDisabled_false in Hgate as (_ & Hk' & _). congruence.
  - rewrite (inFlight_unqueue _ _ Hq) in Hn. simpl in Hn. lia.
  - now destruct ok.
Qed.

Lemma run_disabled_summary (evs : list Event) (w w' : World) :
  disabled_session w -> summary (view w) = lit "" ->
  run w evs = Some w' -> summary (view w') = lit "".
Proof.
  revert w. induction evs as [|ev rest IH]; simpl; intros w Hd Hs H.
  - now injection H as <-.
  - destruct (step w ev) as [w1|] eqn:E; [|discriminate].
    apply (IH w1); [| |exact H].
    + now apply (step_disabled_session _ Hd E).
    + eapply step_disabled_summary; eauto.
Qed.

(** X11.  While a request is loading, the summary panel shows the spinner
    with its caption: the summary is empty, no error banner is up and the
    Copy Summary button is not rendered. *)
Theorem loading_shows_spinner
        (API_KEY : option jsstring) (evs : list Event) (w : World) :
  run (boot API_KEY) evs = Some w ->
  isLoading (view w) = true ->
  summaryPanel (view w) = GeneratingSummary
  /\ summary (view w) = lit ""
  /\ errorBannerShown (view w) = false
  /\ copySummaryShown (view w) = false.
Proof.
  intros H Hload.
  pose proof (run_coherent _ _ H) as Hc.
  destruct (loading_has_request Hc Hload) as (i & Hi).
  destruct Hc as [_ Inv].
  destruct (Inv _ (nth_error_In _ _ Hi)) as (_ & _ & _ & Hsum & Herr & _).
  unfold summaryPanel, errorBannerShown, copySummaryShown.
  rewrite Hload, Hsum, Herr. repeat split.
Qed.

Lemma loading_shows_spinner_witness :
  exists w,
    run (boot (Some (lit "key"))) [ChangeText sample_note; ClickSummarize]
    = Some w
    /\ summaryPanel (view w) = GeneratingSummary.
Proof.
  eexists. split; [reflexivity|].
  apply (@loading_shows_spinner (Some (lit "key"))
           [ChangeText sample_note; ClickSummarize] _ eq_refl eq_refl).
Defined.

(** X12.  Without a credential the view never summarizes: whatever the
    user does, it is never loading, the summary stays empty, the Summarize
    button stays disabled, the collaborator is never called, and the
    summary panel reads "AI features disabled.". *)
Theorem disabled_session_panel
        (API_KEY : option jsstring) (evs : list Event) (w : World) :
  truthy_opt API_KEY = false ->
  run (boot API_KEY) evs = Some w ->
  summaryPanel (view w) = Placeholder (lit "AI features disabled.")
  /\ isLoading (view w) = false
  /\ summary (view w) = lit ""
  /\ summarizeDisabled (view w) = true
  /\ summarizeCalls (trace w) = [].
Proof.
  intros Hk H.
  destruct (boot_without_key _ Hk) as [Hd _].
  destruct (run_disabled_session _ Hd H) as [[Hflag Hn] _].
  assert (Hsum : summary (view w) = lit "").
  { apply (@run_disabled_summary evs (boot API_KEY) w Hd); [|exact H].
    unfold boot, startupEffect. now rewrite Hk. }
  assert (Hload : isLoading (view w) = false).
  { destruct (run_coherent _ _ H) as [Hl _].
    unfold loading_tracks_requests in Hl. rewrite Hn in Hl.
    destruct (isLoading (view w)); [discriminate | reflexivity]. }
  unfold summaryPanel, summarizeDisabled.
  rewrite Hload, Hsum, Hflag. repeat split.
  rewrite (@run_calls_flag evs (boot API_KEY) w (proj1 Hd) H), boot_trace. reflexivity.
Qed.

Lemma disabled_session_panel_witness :
  exists w,
    run (boot None) [ChangeText sample_note; ClickClear] = Some w
    /\ summaryPanel (view w) = Placeholder (lit "AI features disabled.").
Proof.
  eexists. split; [reflexivity|].
  apply (@disabled_session_panel None [ChangeText sample_note; ClickClear]
           _ eq_refl eq_refl).
Defined.

(** X13.  No message held in the state is ever the empty string, so the
    error banner is up exactly when an error is stored and the toast
    exactly when a copy notification is stored. *)
Theorem banners_follow_state
        (API_KEY : option jsstring) (evs : list Event) (w : World) :
  run (boot API_KEY) evs = Some w ->
  (errorBannerShown (view w) = true <-> error (view w) <> None)
  /\ (toastShown (view w) = true <-> copyNotification (view w) <> None).
Proof.
  intros H.
  assert (Inv : messages_nonempty w).
  { eapply (run_invariant messages_nonempty);
      eauto using step_messages_nonempty.
    apply boot_messages_nonempty. }
  destruct Inv as [He Hn]. unfold errorBannerShown, toastShown.
  split.
  - destruct (error (view w)) as [[|c m]|]; simpl;
      [ exfalso; now apply He
      | split; [discriminate | reflexivity]
      | split; [discriminate | intros E; now contradiction E] ].
  - destruct (copyNotification (view w)) as [[|c m]|]; simpl;
      [ exfalso; now apply Hn
      | split; [discriminate | reflexivity]
      | split; [discriminate | intros E; now contradiction E] ].
Qed.

Lemma banners_follow_state_witness :
  exists w,
    run (boot None) [ChangeText sample_note; ClickCopyNote;
                     ClipboardSettles 0 false] = Some w
    /\ (errorBannerShown (view w) = true <-> error (view w) <> None)
    /\ (toastShown (view w) = true <-> copyNotification (view w) <> None).
Proof.
  eexists. split; [reflexivity|].
  apply (@banners_follow_state None
           [ChangeText sample_note; ClickCopyNote; ClipboardSettles 0 false]
           _ eq_refl).
Defined.

(** X14.  With a credential, a click on Clear brings the view back to its
    initial state, whatever had been typed, summarized or reported; the
    pending continuations and the trace are left as they are. *)
Theorem clear_restores_initial_state
        (API_KEY : option jsstring) (evs : list Event) (w w' : World) :
  truthy_opt API_KEY = true ->
  run (boot API_KEY) evs = Some w ->
  step w ClickClear = Some w' ->
  view w' = initialState /\ pending w' = pending w /\ trace w' = trace w.
Proof.
  intros Hk H Hc.
  assert (Hflag : apiKeyMissing (view w) = false).
  { rewrite (run_flag_frame _ _ H), boot_flag, Hk. reflexivity. }
  step_inv Hc. unfold clearDisabled in Hgate.
  rewrite view_dispatch, pending_dispatch, trace_dispatch.
  unfold handleClear, bind, stateOf. simpl.
  rewrite Hgate, Hflag, !app_nil_r. repeat split.
Qed.

Lemma clear_restores_initial_state_witness :
  exists w w',
    run (boot (Some (lit "key")))
      [ChangeText sample_note; ClickSummarize;
       SummarizeTextSettles 0 (Rejected {| message := None |})] = Some w
    /\ step w ClickClear = Some w'
    /\ view w' = initialState.
Proof.
  eexists. eexists. split; [reflexivity|]. split; [reflexivity|].
  apply (@clear_restores_initial_state (Some (lit "key"))
           [ChangeText sample_note; ClickSummarize;
            SummarizeTextSettles 0 (Rejected {| message := None |})]
           _ _ eq_refl eq_refl eq_refl).
Defined.

Lemma dispatch_handleSummarize (w : World) :
  apiKeyMissing (view w) = false ->
  blank (inputText (view w)) = false ->
  dispatch handleSummarize awaited w
  = {| view :=
         {| inputText := inputText (view w); summary := lit "";
            isLoading := true; error := None; apiKeyMissing := false;
            copyNotification := copyNotification (view w) |};
       pending := pending w ++ [PendingSummarize (inputText (view w))];
       trace := trace w ++ [CallSummarizeText (inputText (view w))] |}.
Proof.
  intros Hk Hb. unfold dispatch. now rewrite handleSummarize_call.
Qed.

(** X15.  What a failed request leaves on screen: the error banner with
    the collaborator's message or the fallback, the note untouched, an
    empty summary with the panel reading "Summary could not be generated.",
    and one line on the console. *)
Theorem failed_request_view
        (API_KEY : option jsstring) (evs : list Event) (w : World)
        (i : nat) (T : jsstring) (e : Thrown) :
  run (boot API_KEY) evs = Some w ->
  nth_error (pending w) i = Some (PendingSummarize T) ->
  exists w',
    step w (SummarizeTextSettles i (Rejected e)) = Some w'
    /\ error (view w') = Some (or_else (message e) fallbackMessage)
    /\ errorBannerShown (view w') = true
    /\ summaryPanel (view w')
       = Placeholder (lit "Summary could not be generated.")
    /\ inputText (view w') = T
    /\ trace w'
       = trace w ++ [ConsoleError (lit "Summarization error:") (Some e)].
Proof.
  intros H Hi.
  rewrite (@summarize_settles_step w i T (Rejected e) (run_coherent _ _ H) Hi).
  pose proof (@or_else_truthy (message e) fallbackMessage eq_refl) as Ht.
  eexists. split; [reflexivity|].
  unfold errorBannerShown, summaryPanel. simpl. rewrite Ht. repeat split.
Qed.

Lemma failed_request_view_witness :
  exists w w',
    run (boot (Some (lit "key"))) [ChangeText sample_note; ClickSummarize]
    = Some w
    /\ step w (SummarizeTextSettles 0 (Rejected {| message := None |}))
       = Some w'
    /\ error (view w') = Some fallbackMessage
    /\ summaryPanel (view w')
       = Placeholder (lit "Summary could not be generated.").
Proof.
  eexists.
  destruct (@failed_request_view (Some (lit "key"))
              [ChangeText sample_note; ClickSummarize] _ 0 sample_note
              {| message := None |} eq_refl eq_refl)
    as (w' & Hs & He & _ & Hp & _).
  exists w'. split; [reflexivity|]. split; [exact Hs|].
  split; [exact He | exact Hp].
Defined.

(** X16.  What a fulfilled request leaves on screen: the summary with its
    Copy Summary button when the collaborator returned some text; when it
    returned the empty string, the panel reads "Summary will appear
    here..." as before any request, with no button and no error. *)
Theorem fulfilled_request_view
        (API_KEY : option jsstring) (evs : list Event) (w : World)
        (i : nat) (T R : jsstring) :
  run (boot API_KEY) evs = Some w ->
  nth_error (pending w) i = Some (PendingSummarize T) ->
  exists w',
    step w (SummarizeTextSettles i (Fulfilled R)) = Some w'
    /\ summaryPanel (view w')
       = (if truthy R then SummaryText R
          else Placeholder (lit "Summary will appear here..."))
    /\ copySummaryShown (view w') = truthy R
    /\ errorBannerShown (view w') = false.
Proof.
  intros H Hi.
  rewrite (@summarize_settles_step w i T (Fulfilled R) (run_coherent _ _ H) Hi).
  eexists. split; [reflexivity|].
  unfold errorBannerShown, summaryPanel, copySummaryShown. simpl.
  destruct (truthy R); repeat split.
Qed.

Lemma fulfilled_request_view_witness :
  exists w w',
    run (boot (Some (lit "key"))) [ChangeText sample_note; ClickSummarize]
    = Some w
    /\ step w (SummarizeTextSettles 0 (Fulfilled (lit ""))) = Some w'
    /\ summaryPanel (view w')
       = Placeholder (lit "Summary will appear here...").
Proof.
  eexists.
  destruct (@fulfilled_request_view (Some (lit "key"))
              [ChangeText sample_note; ClickSummarize] _ 0 sample_note
              (lit "") eq_refl eq_refl)
    as (w' & Hs & Hp & _).
  exists w'. split; [reflexivity|]. split; [exact Hs | exact Hp].
Defined.

(** X17.  Typing replaces the note and nothing else: the summary of the
    earlier note and any error stay on screen; afterwards Copy Note is
    disabled exactly when the new text is blank, and Summarize exactly when
    it is blank or the credential is missing. *)
Theorem typing_keeps_summary_and_error (w w' : World) (v : jsstring) :
  step w (ChangeText v) = Some w' ->
  inputText (view w') = v
  /\ summary (view w') = summary (view w)
  /\ error (view w') = error (view w)
  /\ copyNoteDisabled (view w') = blank v
  /\ summarizeDisabled (view w') = apiKeyMissing (view w) || blank v.
Proof.
  intros H. step_inv H. unfold textareaDisabled in Hgate.
  rewrite view_dispatch.
  unfold copyNoteDisabled, summarizeDisabled. simpl.
  rewrite Hgate, truthy_trim, negb_involutive. repeat split.
Qed.

Lemma typing_keeps_summary_and_error_witness :
  exists w',
    step {| view := typed_state; pending := []; trace := [] |}
      (ChangeText (lit "  ")) = Some w'
    /\ summary (view w') = lit "old summary"
    /\ copyNoteDisabled (view w') = true.
Proof.
  eexists. split; [reflexivity|].
  destruct (@typing_keeps_summary_and_error
              {| view := typed_state; pending := []; trace := [] |}
              _ (lit "  ") eq_refl) as (_ & Hs & _ & Hc & _).
  split; [exact Hs | exact Hc].
Defined.

(** X18.  A failed request can be retried: after the failure the Summarize
    button is enabled again, a second click sends the same note, and when
    that call fulfils with [R] the view shows [R] with the error gone. *)
Theorem retry_after_failure
        (API_KEY : option jsstring) (evs : list Event) (w : World)
        (i : nat) (T R : jsstring) (e : Thrown) :
  run (boot API_KEY) evs = Some w ->
  nth_error (pending w) i = Some (PendingSummarize T) ->
  exists w3,
    run w [SummarizeTextSettles i (Rejected e); ClickSummarize;
           SummarizeTextSettles (List.length (pending w) - 1) (Fulfilled R)]
    = Some w3
    /\ inputText (view w3) = T
    /\ summary (view w3) = R
    /\ error (view w3) = None
    /\ isLoading (view w3) = false
    /\ summarizeCalls (trace w3)
       = summarizeCalls (trace w) ++ [CallSummarizeText T].
Proof.
  intros H Hi.
  pose proof (run_coherent _ _ H) as Hc.
  destruct (proj2 Hc T (nth_error_In _ _ Hi)) as (_ & _ & Hb & _).
  pose proof (length_remove_nth _ _ Hi) as Hlen.
  assert (Hn : List.length (pending w) - 1
               = List.length (remove_nth i (pending w))) by lia.
  unfold run. rewrite (@summarize_settles_step w i T (Rejected e) Hc Hi).
  match goal with
  | |- context [step ?x ClickSummarize] => set (w1 := x)
  end.
  assert (H2 : step w1 ClickSummarize
               = Some (dispatch handleSummarize awaited w1)).
  { unfold step, summarizeDisabled. simpl. now rewrite truthy_trim, Hb. }
  rewrite H2, dispatch_handleSummarize by (simpl; auto).
  unfold step. simpl. rewrite Hn, nth_error_last.
  eexists. split; [reflexivity|].
  rewrite view_dispatch, trace_dispatch. simpl.
  repeat split.
  rewrite app_nil_r, !summarizeCalls_app. simpl. now rewrite app_nil_r.
Qed.

Lemma retry_after_failure_witness :
  exists w w3,
    run (boot (Some (lit "key"))) [ChangeText sample_note; ClickSummarize]
    = Some w
    /\ run w [SummarizeTextSettles 0 (Rejected {| message := None |});
              ClickSummarize;
              SummarizeTextSettles 0 (Fulfilled sample_summary)] = Some w3
    /\ summary (view w3) = sample_summary
    /\ error (view w3) = None.
Proof.
  eexists.
  destruct (@retry_after_failure (Some (lit "key"))
              [ChangeText sample_note; ClickSummarize] _ 0 sample_note
              sample_summary {| message := None |} eq_refl eq_refl)
    as (w3 & Hr & _ & Hs & He & _).
  exists w3. split; [reflexivity|]. split; [exact Hr|].
  split; [exact Hs | exact He].
Defined.
